(** * The double pendulum of [final_double_pendulum.ipynb]

    A shallow embedding of the class [DoublePendulum] (cell 7 of the
    notebook): its constructor, the right-hand side [dy_dt] of the equations
    of motion and the driver [solve_ode]; and of the two helpers of the
    plotting cells, [start_stop_indices] and [plot_y_vs_x].

    Modelling conventions.
    - Python floats are idealised as the real numbers of the standard
      library; [np.sin] and [np.cos] are [sin] and [cos], [x**2] is [x ^ 2].
      Where rounding decides a property, the lines concerned are embedded a
      second time over binary64 numbers, under names ending in [64].
    - The instance is a record of its five attributes.  Methods are written
      in state-passing style over that record, so that what a call leaves
      behind in the object is part of its result.
    - Exceptions are explicit: a method returns or raises.
    - [scipy.integrate.solve_ivp] is not part of the notebook.  The one call
      that [solve_ode] makes to it is an event of the program: the request
      that is sent, and a continuation that receives the library's answer. *)

From Stdlib Require Import Reals Lra String List ZArith Bool.
From Stdlib Require Import Lia.
From Stdlib Require Import Floats.PrimFloat.

#[local] Set Warnings "-inexact-float".
Import ListNotations.

Open Scope R_scope.

(** ** Exceptions and outcomes *)

Inductive exn : Type :=
| IndexError                    (* sequence index out of range *)
| ValueError                    (* wrong number of values to unpack *)
| LibraryError (msg : string).  (* anything raised inside the solver library *)

Inductive outcome (A : Type) : Type :=
| Returns (a : A)
| Raises (e : exn).

Arguments Returns {A} a.
Arguments Raises {A} e.

(** ** The instance *)

(** The attributes, in the order in which [__init__] assigns them. *)
Record DoublePendulum : Type := mkDoublePendulum {
  L1 : R;
  L2 : R;
  g : R;
  m1 : R;
  m2 : R
}.

(** A keyword argument with a default value. *)
Definition kwarg (default : R) (given : option R) : R :=
  match given with
  | Some v => v
  | None => default
  end.

(** [DoublePendulum(L1=1., L2=1., m1=1., m2=1., g=1.)]: allocation followed
    by [__init__], which stores every argument in the attribute of the same
    name. *)
Definition __init__ (L1 L2 m1 m2 g : option R) : DoublePendulum :=
  {| L1 := kwarg 1.0 L1;
     L2 := kwarg 1.0 L2;
     g := kwarg 1.0 g;
     m1 := kwarg 1.0 m1;
     m2 := kwarg 1.0 m2 |}.

(** ** Methods: state and exceptions *)

Definition method (A : Type) : Type :=
  DoublePendulum -> outcome A * DoublePendulum.

Definition ret {A : Type} (a : A) : method A :=
  fun self => (Returns a, self).

Definition raise {A : Type} (e : exn) : method A :=
  fun self => (Raises e, self).

Definition bind {A B : Type} (m : method A) (k : A -> method B) : method B :=
  fun self =>
    match m self with
    | (Returns a, self') => k a self'
    | (Raises e, self') => (Raises e, self')
    end.

Declare Scope method_scope.
Delimit Scope method_scope with method.
Bind Scope method_scope with method.

Notation "x <- m ;; k" := (bind m (fun x => k))
  (at level 61, m at next level, right associativity) : method_scope.

(** [self.attr] *)
Definition getattr (attr : DoublePendulum -> R) : method R :=
  fun self => (Returns (attr self), self).

(** [seq[i]] for a constant index [i >= 0]. *)
Definition getitem (seq : list R) (i : nat) : method R :=
  match nth_error seq i with
  | Some x => ret x
  | None => raise IndexError
  end.

(** ** [dy_dt]

    The reads of [y] and of the attributes are bound once each, in the order
    in which the body first evaluates them; the arithmetic is then the
    body's, operator for operator. *)
Definition dy_dt (t : R) (y : list R) : method (R * R * R * R) :=
  (y0 <- getitem y 0 ;;
   y2 <- getitem y 2 ;;
   let cosp := cos (y0 - y2) in
   let sinp := sin (y0 - y2) in
   m1 <- getattr m1 ;;
   m2 <- getattr m2 ;;
   let d := m1 + m2 * sinp ^ 2 in
   g <- getattr g ;;
   L1 <- getattr L1 ;;
   y1 <- getitem y 1 ;;
   L2 <- getattr L2 ;;
   y3 <- getitem y 3 ;;
   let phi1_doubledot :=
     (m2 * g * sin y2 * cosp - m2 * sinp * (L1 * y1 ^ 2 * cosp + L2 * y3 ^ 2)
      - (m1 + m2) * g * sin y0) / (L1 * d) in
   let phi2_doubledot :=
     ((m1 + m2) * (L1 * y1 ^ 2 * sinp - g * sin y2 + g * sin y0 * cosp)
      + m2 * L2 * y3 ^ 2 * sinp * cosp) / (L2 * d) in
   ret (y1, phi1_doubledot, y3, phi2_doubledot))%method.

(** ** The solver library as an event

    What [solve_ivp] is asked: the right-hand side, the integration span, the
    initial state, the output grid and the two tolerances.  [solve_ode]
    passes no other argument. *)
Record ivp_request : Type := mkRequest {
  ivp_fun : R -> list R -> outcome (R * R * R * R);
  ivp_t_span : R * R;
  ivp_y0 : list R;
  ivp_t_eval : list R;
  ivp_atol : R;
  ivp_rtol : R
}.

(** What [solve_ivp] answers when it returns: the fields of its result
    object that describe the samples and the termination.  [ode_y] is the
    array [solution.y], one row per state component; [ode_status] is [0] when
    the end of the span was reached and [-1] when a step failed, and
    [ode_success] is [status >= 0]. *)
Record OdeResult : Type := mkOdeResult {
  ode_t : list R;
  ode_y : list (list R);
  ode_status : Z;
  ode_success : bool
}.

(** A program over the instance that may call the library. *)
Inductive prog (A : Type) : Type :=
| Done (r : outcome A) (self : DoublePendulum)
| SolveIvp (q : ivp_request) (k : outcome OdeResult -> prog A).

Arguments Done {A} r self.
Arguments SolveIvp {A} q k.

Definition action (A : Type) : Type := DoublePendulum -> prog A.

Fixpoint prog_bind {A B : Type} (p : prog A) (k : A -> action B) : prog B :=
  match p with
  | Done (Returns a) self' => k a self'
  | Done (Raises e) self' => Done (Raises e) self'
  | SolveIvp q c => SolveIvp q (fun r => prog_bind (c r) k)
  end.

Definition action_bind {A B : Type} (m : action A) (k : A -> action B)
  : action B :=
  fun self => prog_bind (m self) k.

Definition lift {A : Type} (m : method A) : action A :=
  fun self => let (r, self') := m self in Done r self'.

Declare Scope action_scope.
Delimit Scope action_scope with action.
Bind Scope action_scope with action.

Notation "x <- m ;; k" := (action_bind m (fun x => k))
  (at level 61, m at next level, right associativity) : action_scope.

(** [self.dy_dt]: the bound method.  It reads the attributes of the
    instance it is bound to each time the library calls it. *)
Definition bound_dy_dt : action (R -> list R -> outcome (R * R * R * R)) :=
  fun self => Done (Returns (fun t y => fst (dy_dt t y self))) self.

(** [solve_ivp(fun, t_span, y0, t_eval=..., atol=..., rtol=...)]: the answer
    of the library, a result object or an exception, is handed back to the
    caller as it is. *)
Definition solve_ivp (f : R -> list R -> outcome (R * R * R * R))
  (t_span : R * R) (y0 t_eval : list R) (atol rtol : R) : action OdeResult :=
  fun self =>
    SolveIvp (mkRequest f t_span y0 t_eval atol rtol) (fun r => Done r self).

(** [seq[-1]] *)
Definition getitem_last (seq : list R) : method R :=
  match seq with
  | [] => raise IndexError
  | x :: rest => ret (last rest x)
  end.

(** [a, b, c, d = rows]: exactly four rows, or [ValueError]. *)
Definition unpack4 (rows : list (list R))
  : method (list R * list R * list R * list R) :=
  match rows with
  | [a; b; c; d] => ret (a, b, c, d)
  | _ => raise ValueError
  end.

(** ** [solve_ode] *)
Definition solve_ode (t_pts : list R)
  (phi1_0 phi1_dot_0 phi2_0 phi2_dot_0 : R) (abserr relerr : option R)
  : action (list R * list R * list R * list R) :=
  (let abserr := kwarg 1.0e-10 abserr in
   let relerr := kwarg 1.0e-10 relerr in
   let y := [phi1_0; phi1_dot_0; phi2_0; phi2_dot_0] in
   f <- bound_dy_dt ;;
   t_first <- lift (getitem t_pts 0) ;;
   t_last <- lift (getitem_last t_pts) ;;
   solution <- solve_ivp f (t_first, t_last) y t_pts abserr relerr ;;
   cols <- lift (unpack4 (ode_y solution)) ;;
   let '(phi1, phi1_dot, phi2, phi2_dot) := cols in
   lift (ret (phi1, phi1_dot, phi2, phi2_dot)))%action.

(** ** Running a program against a library

    A library is any function from requests to answers. *)
Definition library : Type := ivp_request -> outcome OdeResult.

Fixpoint run {A : Type} (lib : library) (p : prog A)
  : outcome A * DoublePendulum :=
  match p with
  | Done r self => (r, self)
  | SolveIvp q k => run lib (k (lib q))
  end.

(** ** Calls from outside *)

Inductive call : Type :=
| Call_dy_dt (t : R) (y : list R)
| Call_solve_ode (t_pts : list R)
    (phi1_0 phi1_dot_0 phi2_0 phi2_dot_0 : R) (abserr relerr : option R).

Inductive value : Type :=
| Derivative (dy : R * R * R * R)
| Columns (cols : list R * list R * list R * list R).

Definition map_outcome {A B : Type} (f : A -> B) (r : outcome A) : outcome B :=
  match r with
  | Returns a => Returns (f a)
  | Raises e => Raises e
  end.

Definition invoke (lib : library) (c : call) (self : DoublePendulum)
  : outcome value * DoublePendulum :=
  match c with
  | Call_dy_dt t y =>
      let (r, self') := dy_dt t y self in (map_outcome Derivative r, self')
  | Call_solve_ode t_pts phi1_0 phi1_dot_0 phi2_0 phi2_dot_0 abserr relerr =>
      let (r, self') :=
        run lib (solve_ode t_pts phi1_0 phi1_dot_0 phi2_0 phi2_dot_0
                   abserr relerr self) in
      (map_outcome Columns r, self')
  end.

(** The instance after a sequence of calls, the first of the list first. *)
Fixpoint invoke_all (lib : library) (cs : list call) (self : DoublePendulum)
  : DoublePendulum :=
  match cs with
  | [] => self
  | c :: rest => invoke_all lib rest (snd (invoke lib c self))
  end.

(** ** The equations of motion as the specification writes them *)

Section Equations_of_motion.

Variables L1 L2 m1 m2 g : R.
Variables phi1 phi1_dot phi2 phi2_dot : R.

Definition spec_cosp : R := cos (phi1 - phi2).
Definition spec_sinp : R := sin (phi1 - phi2).

Definition spec_d : R := m1 + m2 * spec_sinp ^ 2.

Definition spec_phi1_ddot : R :=
  (m2 * g * sin phi2 * spec_cosp
   - m2 * spec_sinp * (L1 * phi1_dot ^ 2 * spec_cosp + L2 * phi2_dot ^ 2)
   - (m1 + m2) * g * sin phi1) / (L1 * spec_d).

Definition spec_phi2_ddot : R :=
  ((m1 + m2) * (L1 * phi1_dot ^ 2 * spec_sinp - g * sin phi2
                + g * sin phi1 * spec_cosp)
   + m2 * L2 * phi2_dot ^ 2 * spec_sinp * spec_cosp) / (L2 * spec_d).

End Equations_of_motion.

(** Componentwise negation of a derivative. *)
Definition neg4 (v : R * R * R * R) : R * R * R * R :=
  let '(a, b, c, d) := v in (- a, - b, - c, - d).

(** ** Time grids and trajectories *)

(** Each entry is smaller than the next one. *)
Fixpoint strictly_increasing (ts : list R) : Prop :=
  match ts with
  | [] => True
  | t0 :: rest =>
      match rest with
      | [] => True
      | t1 :: _ => t0 < t1 /\ strictly_increasing rest
      end
  end.

(** The trajectory that a caller reads off a result of [solve_ode]: the
    notebook pairs the grid it passed with the four returned columns, index
    by index ([plot_y_vs_x(t_pts[...], phi1[...])]).  A sample exists only
    where the grid and all four columns have an entry. *)
Fixpoint samples (ts phi1 phi1_dot phi2 phi2_dot : list R)
  : list (R * (R * R * R * R)) :=
  match ts, phi1, phi1_dot, phi2, phi2_dot with
  | t :: ts', a :: phi1', b :: phi1_dot', c :: phi2', d :: phi2_dot' =>
      (t, (a, b, c, d)) :: samples ts' phi1' phi1_dot' phi2' phi2_dot'
  | _, _, _, _, _ => []
  end.

Definition trajectory (t_pts : list R)
  (cols : list R * list R * list R * list R) : list (R * (R * R * R * R)) :=
  let '(phi1, phi1_dot, phi2, phi2_dot) := cols in
  samples t_pts phi1 phi1_dot phi2 phi2_dot.

(** The request that [solve_ode] sends for a grid whose first and last
    entries are [t_first] and [t_last]. *)
Definition request_of (self : DoublePendulum) (t_first t_last : R)
  (t_pts : list R) (phi1_0 phi1_dot_0 phi2_0 phi2_dot_0 : R)
  (abserr relerr : option R) : ivp_request :=
  {| ivp_fun := fun t y => fst (dy_dt t y self);
     ivp_t_span := (t_first, t_last);
     ivp_y0 := [phi1_0; phi1_dot_0; phi2_0; phi2_dot_0];
     ivp_t_eval := t_pts;
     ivp_atol := kwarg 1.0e-10 abserr;
     ivp_rtol := kwarg 1.0e-10 relerr |}.

(** What [solve_ode] does with the answer of the library. *)
Definition after_answer (self : DoublePendulum) (answer : outcome OdeResult)
  : prog (list R * list R * list R * list R) :=
  match answer with
  | Raises e => Done (Raises e) self
  | Returns r =>
      match ode_y r with
      | [phi1; phi1_dot; phi2; phi2_dot] =>
          Done (Returns (phi1, phi1_dot, phi2, phi2_dot)) self
      | _ => Done (Raises ValueError) self
      end
  end.

(** A program that ends in an exception without having called the
    library. *)
Definition rejected_before_integration {A : Type} (p : prog A) : Prop :=
  exists (e : exn) (self' : DoublePendulum), p = Done (Raises e) self'.

(** ** Concrete instances and libraries *)

(** [p1] of the notebook: every parameter [1.]. *)
Definition p1 : DoublePendulum :=
  __init__ (Some 1.0) (Some 1.0) (Some 1.0) (Some 1.0) (Some 1.0).

(** An answer of the library that reports a failed step after the first
    sample: status [-1], one column. *)
Definition failed_answer : OdeResult :=
  {| ode_t := [0];
     ode_y := [[PI / 2]; [0]; [PI]; [0]];
     ode_status := (-1)%Z;
     ode_success := false |}.

(** A library that fails in this way on every request. *)
Definition failing_library : library := fun _ => Returns failed_answer.

(** A library that answers every request with the constant solution
    [y(t) = y0]. *)
Definition constant_library : library :=
  fun q =>
    Returns {| ode_t := ivp_t_eval q;
               ode_y := map (fun c => map (fun _ => c) (ivp_t_eval q))
                          (ivp_y0 q);
               ode_status := 0%Z;
               ode_success := true |}.

(** ** The divisors of [dy_dt] in binary64

    The instance with its attributes as binary64 numbers, and the lines
    [d = (self.m1+self.m2 * sinp**2)], [(self.L1*d)] and [(self.L2*d)] of
    [dy_dt] with the operations of binary64 arithmetic.  [sinp] is the
    number that [np.sin(y[0]-y[2])] returned; NumPy squares it for the
    exponent [2]. *)
Record DoublePendulum64 : Type := mkDoublePendulum64 {
  L1_64 : float;
  L2_64 : float;
  g_64 : float;
  m1_64 : float;
  m2_64 : float
}.

Definition d_64 (self : DoublePendulum64) (sinp : float) : float :=
  (m1_64 self + m2_64 self * (sinp * sinp))%float.

Definition divisors_64 (self : DoublePendulum64) (sinp : float)
  : float * float :=
  let d := d_64 self sinp in
  ((L1_64 self * d)%float, (L2_64 self * d)%float).

(** [DoublePendulum(L1=1e-200, L2=1e-200, m1=1e-200, m2=1e-200)]: every
    mass and length is a positive binary64 number. *)
Definition tiny_pendulum : DoublePendulum64 :=
  {| L1_64 := 1e-200; L2_64 := 1e-200; g_64 := 1;
     m1_64 := 1e-200; m2_64 := 1e-200 |}.

(** ** The energies of the notebook

    Cell 4 of the notebook derives the equations of motion from the kinetic
    energy [T] and the potential energy [U] of the two bobs, written in the
    generalized coordinates.  They are transcribed here term by term.  (The
    notebook's display of the Lagrangian prints [phi_1] where [T] has the
    velocity [phi_1_dot]; the Lagrangian below is [T - U].) *)

Definition kinetic_energy (self : DoublePendulum)
  (phi1 phi1_dot phi2 phi2_dot : R) : R :=
  1 / 2 * (m1 self + m2 self) * L1 self ^ 2 * phi1_dot ^ 2
  + m2 self * L1 self * L2 self * phi1_dot * phi2_dot * cos (phi1 - phi2)
  + 1 / 2 * m2 self * L2 self ^ 2 * phi2_dot ^ 2.

Definition potential_energy (self : DoublePendulum) (phi1 phi2 : R) : R :=
  - (m1 self + m2 self) * L1 self * g self * cos phi1
  - m2 self * L2 self * g self * cos phi2.

Definition lagrangian (self : DoublePendulum)
  (phi1 phi1_dot phi2 phi2_dot : R) : R :=
  kinetic_energy self phi1 phi1_dot phi2 phi2_dot
  - potential_energy self phi1 phi2.

Definition total_energy (self : DoublePendulum)
  (phi1 phi1_dot phi2 phi2_dot : R) : R :=
  kinetic_energy self phi1 phi1_dot phi2 phi2_dot
  + potential_energy self phi1 phi2.

(** A motion [(phi1, phi1_dot, phi2, phi2_dot)] follows [dy_dt] at time [t]
    when [dy_dt] returns, on the state of the motion at [t], the derivatives
    of its four components at [t]. *)
Definition follows_dy_dt (self : DoublePendulum)
  (phi1 phi1_dot phi2 phi2_dot : R -> R) (t : R) : Prop :=
  exists a b c d : R,
    fst (dy_dt t [phi1 t; phi1_dot t; phi2 t; phi2_dot t] self) =
    Returns (a, b, c, d) /\
    derivable_pt_lim phi1 t a /\
    derivable_pt_lim phi1_dot t b /\
    derivable_pt_lim phi2 t c /\
    derivable_pt_lim phi2_dot t d.

(** A pendulum without gravity: [DoublePendulum(g=0.)]. *)
Definition weightless : DoublePendulum :=
  __init__ None None None None (Some 0).

(** ** Counting the calls of the library *)

Fixpoint library_calls {A : Type} (lib : library) (p : prog A) : nat :=
  match p with
  | Done _ _ => 0
  | SolveIvp q k => S (library_calls lib (k (lib q)))
  end.

(** ** [start_stop_indices] (cell 9) and the slices of its callers *)

(** [np.fabs(t_pts - x)]: the distance of every grid time to [x]. *)
Definition distances (t_pts : list R) (x : R) : list R :=
  map (fun t => Rabs (t - x)) t_pts.

(** [a.argmin()] scans the array once and keeps the first smallest entry:
    [best] is the smallest entry seen so far, [best_index] its index, [i]
    the index of the next entry. *)
Fixpoint argmin_from (best_index : nat) (best : R) (i : nat) (a : list R)
  : nat :=
  match a with
  | [] => best_index
  | x :: rest =>
      if Rlt_dec x best
      then argmin_from i x (S i) rest
      else argmin_from best_index best (S i) rest
  end.

(** On an empty array [argmin] raises [ValueError]. *)
Definition argmin (a : list R) : outcome nat :=
  match a with
  | [] => Raises ValueError
  | x :: rest => Returns (argmin_from 0 x 1 rest)
  end.

Definition start_stop_indices (t_pts : list R) (plot_start plot_stop : R)
  : outcome (nat * nat) :=
  match argmin (distances t_pts plot_start) with
  | Raises e => Raises e
  | Returns start_index =>
      match argmin (distances t_pts plot_stop) with
      | Raises e => Raises e
      | Returns stop_index => Returns (start_index, stop_index)
      end
  end.

(** [seq[start : stop]] for indices that are not negative. *)
Definition slice (seq : list R) (start stop : nat) : list R :=
  firstn (stop - start) (skipn start seq).

(** What the plotting cells (12 and 14) hand to [plot_y_vs_x]:
    [start, stop = start_stop_indices(t_pts, plot_start, plot_stop)], then
    [t_pts[start : stop]] and [column[start : stop]]. *)
Definition plot_window (t_pts column : list R) (plot_start plot_stop : R)
  : outcome (list R * list R) :=
  match start_stop_indices t_pts plot_start plot_stop with
  | Raises e => Raises e
  | Returns (start, stop) =>
      Returns (slice t_pts start stop, slice column start stop)
  end.

(** [r] is the index of the first smallest entry of [a]. *)
Definition first_minimum (a : list R) (r : nat) : Prop :=
  exists m : R,
    nth_error a r = Some m /\
    (forall (k : nat) (x : R), nth_error a k = Some x -> m <= x) /\
    (forall (k : nat) (x : R), (k < r)%nat -> nth_error a k = Some x -> m < x).

(** [i] is the index of the grid time nearest to [x], the first one when
    several are equally near. *)
Definition nearest_first (t_pts : list R) (x : R) (i : nat) : Prop :=
  (i < length t_pts)%nat /\
  (forall k : nat, (k < length t_pts)%nat ->
     Rabs (nth i t_pts 0 - x) <= Rabs (nth k t_pts 0 - x)) /\
  (forall k : nat, (k < i)%nat ->
     Rabs (nth i t_pts 0 - x) < Rabs (nth k t_pts 0 - x)).

(** ** [plot_y_vs_x] (cell 8)

    The function only talks to the plotting library.  Its embedding records
    the calls it makes, in order, and whether it returns: [Gca] is
    [plt.gca()], the three drawing calls are [ax.plot], [ax.semilogy] and
    [ax.loglog] with the data and the keyword arguments they receive, and
    the others are [ax.legend()], [ax.set_title], [ax.set_xlabel] and
    [ax.set_ylabel].  Each drawing call is taken to return its one curve. *)
Inductive axes_call : Type :=
| Gca
| Plot (x y : list R) (label color linestyle : option string)
| Semilogy (x y : list R) (label color linestyle : option string)
| Loglog (x y : list R) (label color linestyle : option string)
| Legend
| Set_title (title : string)
| Set_xlabel (text : string)
| Set_ylabel (text : string).

Definition is_drawing (c : axes_call) : bool :=
  match c with
  | Plot _ _ _ _ _ | Semilogy _ _ _ _ _ | Loglog _ _ _ _ _ => true
  | _ => false
  end.

(** [ax_given] tells whether the caller passed an axis; [None] stands for
    an argument left at its default [None]. *)
Definition plot_y_vs_x (x y : list R) (axis_labels : option (list string))
  (label title color linestyle : option string) (semilogy loglog : bool)
  (ax_given : bool) : list axes_call * outcome unit :=
  let got_axes := if ax_given then [] else [Gca] in
  let drawn :=
    got_axes ++
    [if semilogy then Semilogy x y label color linestyle
     else if loglog then Loglog x y label color linestyle
     else Plot x y label color linestyle] in
  let with_legend :=
    drawn ++ match label with Some _ => [Legend] | None => [] end in
  let with_title :=
    with_legend ++
    match title with Some s => [Set_title s] | None => [] end in
  match axis_labels with
  | None => (with_title, Returns tt)
  | Some labels =>
      match nth_error labels 0 with
      | None => (with_title, Raises IndexError)
      | Some x_text =>
          match nth_error labels 1 with
          | None => (with_title ++ [Set_xlabel x_text], Raises IndexError)
          | Some y_text =>
              (with_title ++ [Set_xlabel x_text; Set_ylabel y_text],
               Returns tt)
          end
      end
  end.

(** * Properties of [dy_dt] *)

(** On a state of four components [dy_dt] reads nothing else and raises
    nothing: its value is the tuple of the body's two quotients. *)
Lemma dy_dt_unfold (self : DoublePendulum) (t a b c d : R) :
  dy_dt t [a; b; c; d] self =
  (Returns
     (b,
      (m2 self * g self * sin c * cos (a - c)
       - m2 self * sin (a - c)
         * (L1 self * b ^ 2 * cos (a - c) + L2 self * d ^ 2)
       - (m1 self + m2 self) * g self * sin a)
      / (L1 self * (m1 self + m2 self * sin (a - c) ^ 2)),
      d,
      ((m1 self + m2 self)
       * (L1 self * b ^ 2 * sin (a - c) - g self * sin c
          + g self * sin a * cos (a - c))
       + m2 self * L2 self * d ^ 2 * sin (a - c) * cos (a - c))
      / (L2 self * (m1 self + m2 self * sin (a - c) ^ 2))),
   self).
Proof. reflexivity. Qed.

(** A state with fewer than four components makes [dy_dt] raise
    [IndexError], whatever the components are. *)
Lemma dy_dt_short (self : DoublePendulum) (t : R) (y : list R) :
  (length y < 4)%nat -> dy_dt t y self = (Raises IndexError, self).
Proof.
  intros Hlen.
  destruct y as [|a [|b [|c [|d rest]]]]; try reflexivity.
  simpl in Hlen. repeat apply PeanoNat.lt_S_n in Hlen.
  inversion Hlen.
Qed.

(** Components after the fourth are never read. *)
Lemma dy_dt_prefix (self : DoublePendulum) (t a b c d : R) (rest : list R) :
  dy_dt t (a :: b :: c :: d :: rest) self = dy_dt t [a; b; c; d] self.
Proof. reflexivity. Qed.

(** [dy_dt] leaves the instance as it found it. *)
Lemma dy_dt_frame (self : DoublePendulum) (t : R) (y : list R) :
  snd (dy_dt t y self) = self.
Proof.
  destruct y as [|a [|b [|c [|d rest]]]]; reflexivity.
Qed.

(** The pendulum of the notebook hanging at rest stays at rest. *)
Example dy_dt_at_rest :
  dy_dt 0 [0; 0; 0; 0] p1 = (Returns (0, 0, 0, 0), p1).
Proof.
  rewrite dy_dt_unfold. cbn [p1 __init__ kwarg L1 L2 g m1 m2].
  replace (0 - 0) with 0 by ring.
  rewrite sin_0, cos_0.
  repeat (f_equal; try (field; lra)).
Qed.

(** With both arms horizontal and at rest, the inner arm starts to fall
    with acceleration [-1] and the outer arm does not turn against it. *)
Example dy_dt_horizontal :
  dy_dt 0 [PI / 2; 0; PI / 2; 0] p1 = (Returns (0, -1, 0, 0), p1).
Proof.
  rewrite dy_dt_unfold. cbn [p1 __init__ kwarg L1 L2 g m1 m2].
  replace (PI / 2 - PI / 2) with 0 by ring.
  rewrite sin_0, cos_0, sin_PI2.
  repeat (f_equal; try (field; lra)).
Qed.

(** C1: on every state [(phi1, phi1_dot, phi2, phi2_dot)] and for every
    instance, [dy_dt] returns [(phi1_dot, phi1_ddot, phi2_dot, phi2_ddot)],
    where the two accelerations are the quotients that the specification
    writes with [cosp], [sinp] and [d = m1 + m2*sinp^2]. *)
Theorem dy_dt_equations_of_motion :
  forall (self : DoublePendulum) (t phi1 phi1_dot phi2 phi2_dot : R),
    dy_dt t [phi1; phi1_dot; phi2; phi2_dot] self =
    (Returns
       (phi1_dot,
        spec_phi1_ddot (L1 self) (L2 self) (m1 self) (m2 self) (g self)
          phi1 phi1_dot phi2 phi2_dot,
        phi2_dot,
        spec_phi2_ddot (L1 self) (L2 self) (m1 self) (m2 self) (g self)
          phi1 phi1_dot phi2 phi2_dot),
     self).
Proof.
  intros self t phi1 phi1_dot phi2 phi2_dot.
  rewrite dy_dt_unfold.
  unfold spec_phi1_ddot, spec_phi2_ddot, spec_d, spec_sinp, spec_cosp.
  reflexivity.
Qed.

(** The factor [d] is at least [m1] as soon as [m2] is not negative. *)
Lemma d_lower_bound (m1 m2 x : R) :
  0 <= m2 -> m1 <= m1 + m2 * sin x ^ 2.
Proof.
  intros Hm2.
  assert (Hsq : 0 <= sin x ^ 2) by apply pow2_ge_0.
  assert (Hprod : 0 <= m2 * sin x ^ 2) by (apply Rmult_le_pos; assumption).
  lra.
Qed.




(** C8: [dy_dt] does not depend on its time argument. *)
Theorem dy_dt_autonomous :
  forall (self : DoublePendulum) (t t' : R) (y : list R),
    dy_dt t y self = dy_dt t' y self.
Proof.
  intros self t t' y. reflexivity.
Qed.

(** C10: negating the whole state negates the derivative componentwise (and
    a state too short to be read is rejected on both sides). *)
Theorem dy_dt_odd :
  forall (self : DoublePendulum) (t : R) (y : list R),
    dy_dt t (map Ropp y) self =
    (map_outcome neg4 (fst (dy_dt t y self)), self).
Proof.
  intros self t y.
  destruct y as [|a [|b [|c [|d rest]]]]; try reflexivity.
  cbn [map].
  rewrite (dy_dt_prefix self t a b c d rest).
  rewrite (dy_dt_prefix self t (- a) (- b) (- c) (- d) (map Ropp rest)).
  rewrite (dy_dt_unfold self t a b c d).
  rewrite (dy_dt_unfold self t (- a) (- b) (- c) (- d)).
  cbn [fst map_outcome neg4].
  replace (- a - - c) with (- (a - c)) by ring.
  rewrite !sin_neg, !cos_neg.
  assert (Hquot : forall n x : R, - n / x = - (n / x))
    by (intros n x; unfold Rdiv; ring).
  rewrite <- !Hquot.
  repeat (f_equal; try ring).
Qed.

(** * Properties of [solve_ode] *)

Section Solve_ode.

Variable self : DoublePendulum.
Variables phi1_0 phi1_dot_0 phi2_0 phi2_dot_0 : R.
Variables abserr relerr : option R.

(** On an empty grid [t_pts[0]] raises before the library is called. *)
Lemma solve_ode_empty :
  solve_ode [] phi1_0 phi1_dot_0 phi2_0 phi2_dot_0 abserr relerr self =
  Done (Raises IndexError) self.
Proof. reflexivity. Qed.

(** On every other grid the first thing that happens is the call of the
    library, and what follows is [after_answer]. *)
Lemma solve_ode_nonempty (t0 : R) (rest : list R) :
  exists k : outcome OdeResult -> prog (list R * list R * list R * list R),
    solve_ode (t0 :: rest) phi1_0 phi1_dot_0 phi2_0 phi2_dot_0
      abserr relerr self =
    SolveIvp
      (request_of self t0 (last rest t0) (t0 :: rest)
         phi1_0 phi1_dot_0 phi2_0 phi2_dot_0 abserr relerr) k /\
    forall answer : outcome OdeResult, k answer = after_answer self answer.
Proof.
  eexists. split.
  - reflexivity.
  - intros [r|e]; [|reflexivity].
    cbn. unfold after_answer.
    destruct (ode_y r) as [|a [|b [|c [|d [|x more]]]]]; reflexivity.
Qed.

Lemma run_solve_ode (lib : library) (t0 : R) (rest : list R) :
  run lib
    (solve_ode (t0 :: rest) phi1_0 phi1_dot_0 phi2_0 phi2_dot_0
       abserr relerr self) =
  run lib
    (after_answer self
       (lib (request_of self t0 (last rest t0) (t0 :: rest)
               phi1_0 phi1_dot_0 phi2_0 phi2_dot_0 abserr relerr))).
Proof.
  destruct (solve_ode_nonempty t0 rest) as [k [Hcall Hk]].
  rewrite Hcall. cbn [run]. rewrite Hk. reflexivity.
Qed.

Lemma after_answer_frame (lib : library) (answer : outcome OdeResult) :
  snd (run lib (after_answer self answer)) = self.
Proof.
  destruct answer as [r|e]; [|reflexivity].
  unfold after_answer.
  destruct (ode_y r) as [|a [|b [|c [|d [|x more]]]]]; reflexivity.
Qed.

(** [solve_ode] leaves the instance as it found it, whatever the grid and
    whatever the library answers. *)
Lemma solve_ode_frame (lib : library) (t_pts : list R) :
  snd (run lib
         (solve_ode t_pts phi1_0 phi1_dot_0 phi2_0 phi2_dot_0
            abserr relerr self)) = self.
Proof.
  destruct t_pts as [|t0 rest].
  - reflexivity.
  - rewrite run_solve_ode. apply after_answer_frame.
Qed.

End Solve_ode.

Lemma last_cons (t0 d : R) (rest : list R) :
  last (t0 :: rest) d = last rest t0.
Proof.
  revert t0 d. induction rest as [|t1 rest IH]; intros t0 d.
  - reflexivity.
  - change (last (t1 :: rest) d = last (t1 :: rest) t0).
    rewrite (IH t1 d), (IH t1 t0). reflexivity.
Qed.

(** ** Frame lemmas for calls *)

Lemma invoke_frame (lib : library) (c : call) (self : DoublePendulum) :
  snd (invoke lib c self) = self.
Proof.
  destruct c as [t y | t_pts a b c d abserr relerr]; unfold invoke.
  - pose proof (dy_dt_frame self t y) as H.
    destruct (dy_dt t y self) as [r self']. exact H.
  - pose proof (solve_ode_frame self a b c d abserr relerr lib t_pts) as H.
    destruct (run lib (solve_ode t_pts a b c d abserr relerr self))
      as [r self'].
    exact H.
Qed.

Lemma invoke_all_frame (lib : library) (cs : list call)
  (self : DoublePendulum) :
  invoke_all lib cs self = self.
Proof.
  induction cs as [|c rest IH]; cbn [invoke_all].
  - reflexivity.
  - rewrite invoke_frame. exact IH.
Qed.

(** ** Trajectories of full columns *)

Lemma samples_full (ts a b c d : list R) :
  length a = length ts -> length b = length ts ->
  length c = length ts -> length d = length ts ->
  length (samples ts a b c d) = length ts /\
  map fst (samples ts a b c d) = ts /\
  map (fun s => fst (fst (fst (snd s)))) (samples ts a b c d) = a /\
  map (fun s => snd (fst (fst (snd s)))) (samples ts a b c d) = b /\
  map (fun s => snd (fst (snd s))) (samples ts a b c d) = c /\
  map (fun s => snd (snd s)) (samples ts a b c d) = d.
Proof.
  revert a b c d.
  induction ts as [|t ts IH]; intros a b c d Ha Hb Hc Hd.
  - destruct a, b, c, d; try discriminate. repeat split; reflexivity.
  - destruct a as [|xa a], b as [|xb b], c as [|xc c], d as [|xd d];
      try discriminate.
    injection Ha as Ha. injection Hb as Hb.
    injection Hc as Hc. injection Hd as Hd.
    destruct (IH a b c d Ha Hb Hc Hd) as (Hlen & Ht & H1 & H2 & H3 & H4).
    cbn [samples length map fst snd].
    rewrite Hlen, Ht, H1, H2, H3, H4.
    repeat split; reflexivity.
Qed.

(** * The grid is not validated *)

(** C3, as the specification states it, fails: a grid of one time and a
    grid that is not increasing are both handed to the library; neither is
    rejected by [solve_ode] before the integration is requested. *)
Lemma solve_ode_unvalidated_grids :
  (length [0] < 2)%nat /\
  ~ rejected_before_integration
      (solve_ode [0] (PI / 2) 0 PI 0 None None p1) /\
  ~ strictly_increasing [0; 2; 1] /\
  ~ rejected_before_integration
      (solve_ode [0; 2; 1] (PI / 2) 0 PI 0 None None p1).
Proof.
  split; [repeat constructor|].
  split; [|split].
  - intros (e & s & H).
    destruct (solve_ode_nonempty p1 (PI / 2) 0 PI 0 None None 0 [])
      as [k [Hcall _]].
    rewrite Hcall in H. discriminate H.
  - cbn. lra.
  - intros (e & s & H).
    destruct (solve_ode_nonempty p1 (PI / 2) 0 PI 0 None None 0 [2; 1])
      as [k [Hcall _]].
    rewrite Hcall in H. discriminate H.
Qed.

(** C3, amended: [solve_ode] validates nothing itself.  An empty grid fails
    with [IndexError] before the library is called; every other grid, of
    whatever length and order, is sent to the library unchanged as [t_eval],
    with the span running from its first to its last entry. *)
Theorem solve_ode_delegates_validation :
  forall (self : DoublePendulum)
         (phi1_0 phi1_dot_0 phi2_0 phi2_dot_0 : R) (abserr relerr : option R),
    solve_ode [] phi1_0 phi1_dot_0 phi2_0 phi2_dot_0 abserr relerr self =
    Done (Raises IndexError) self /\
    forall (t0 : R) (rest : list R),
    exists (q : ivp_request)
           (k : outcome OdeResult -> prog (list R * list R * list R * list R)),
      solve_ode (t0 :: rest) phi1_0 phi1_dot_0 phi2_0 phi2_dot_0
        abserr relerr self = SolveIvp q k /\
      ivp_fun q = (fun t y => fst (dy_dt t y self)) /\
      ivp_t_eval q = t0 :: rest /\
      ivp_t_span q = (t0, last rest t0) /\
      ivp_y0 q = [phi1_0; phi1_dot_0; phi2_0; phi2_dot_0].
Proof.
  intros self phi1_0 phi1_dot_0 phi2_0 phi2_dot_0 abserr relerr.
  split.
  - apply solve_ode_empty.
  - intros t0 rest.
    destruct (solve_ode_nonempty self phi1_0 phi1_dot_0 phi2_0 phi2_dot_0
                abserr relerr t0 rest) as [k [Hcall _]].
    eexists. exists k.
    split; [exact Hcall|].
    repeat split.
Qed.

(** * A failed integration is not signalled *)

(** C4, as the specification states it, fails: when the library reports a
    failed step (status [-1]) after one of two requested samples,
    [solve_ode] raises nothing and returns the one-sample columns. *)
Lemma solve_ode_returns_truncated_columns :
  failing_library (request_of p1 0 1 [0; 1] (PI / 2) 0 PI 0 None None) =
  Returns failed_answer /\
  ode_success failed_answer = false /\
  ode_status failed_answer = (-1)%Z /\
  run failing_library (solve_ode [0; 1] (PI / 2) 0 PI 0 None None p1) =
  (Returns ([PI / 2], [0], [PI], [0]), p1) /\
  length (trajectory [0; 1] ([PI / 2], [0], [PI], [0])) = 1%nat /\
  ~ (exists e : exn,
       fst (run failing_library
              (solve_ode [0; 1] (PI / 2) 0 PI 0 None None p1)) = Raises e).
Proof.
  assert (Hrun :
    run failing_library (solve_ode [0; 1] (PI / 2) 0 PI 0 None None p1) =
    (Returns ([PI / 2], [0], [PI], [0]), p1)).
  { rewrite run_solve_ode. reflexivity. }
  split; [reflexivity|].
  split; [reflexivity|].
  split; [reflexivity|].
  split; [exact Hrun|].
  split; [reflexivity|].
  intros [e He]. rewrite Hrun in He. discriminate He.
Qed.

(** C4, amended: [solve_ode] never looks at the status of the answer.
    Whenever the library returns a result whose [y] has four rows, whatever
    its status and success flag, [solve_ode] returns these four rows and
    raises nothing. *)
Theorem solve_ode_ignores_status :
  forall (lib : library) (self : DoublePendulum) (t0 : R) (rest : list R)
         (phi1_0 phi1_dot_0 phi2_0 phi2_dot_0 : R) (abserr relerr : option R)
         (r : OdeResult) (phi1 phi1_dot phi2 phi2_dot : list R),
    lib (request_of self t0 (last rest t0) (t0 :: rest)
           phi1_0 phi1_dot_0 phi2_0 phi2_dot_0 abserr relerr) = Returns r ->
    ode_y r = [phi1; phi1_dot; phi2; phi2_dot] ->
    run lib
      (solve_ode (t0 :: rest) phi1_0 phi1_dot_0 phi2_0 phi2_dot_0
         abserr relerr self) =
    (Returns (phi1, phi1_dot, phi2, phi2_dot), self).
Proof.
  intros lib self t0 rest phi1_0 phi1_dot_0 phi2_0 phi2_dot_0 abserr relerr
    r phi1 phi1_dot phi2 phi2_dot Hlib Hrows.
  rewrite run_solve_ode, Hlib.
  unfold after_answer. rewrite Hrows. reflexivity.
Qed.

(** C4, amended, at the failing library. *)
Lemma solve_ode_ignores_status_witness :
  run failing_library
    (solve_ode [0; 1; 2] (PI / 2) 0 PI 0 (Some 1.0e-10) (Some 1.0e-10) p1) =
  (Returns ([PI / 2], [0], [PI], [0]), p1).
Proof.
  apply (solve_ode_ignores_status failing_library p1 0 [1; 2]
           (PI / 2) 0 PI 0 (Some 1.0e-10) (Some 1.0e-10) failed_answer);
    reflexivity.
Defined.

(** * Shape and order of the result *)

Lemma samples_length (ts a b c d : list R) :
  length (samples ts a b c d) =
  Nat.min (length ts)
    (Nat.min (length a)
       (Nat.min (length b) (Nat.min (length c) (length d)))).
Proof.
  revert a b c d.
  induction ts as [|t ts IH]; intros a b c d; [reflexivity|].
  destruct a as [|xa a]; [reflexivity|].
  destruct b as [|xb b]; [reflexivity|].
  destruct c as [|xc c]; [reflexivity|].
  destruct d as [|xd d]; [cbn; lia|].
  cbn [samples length]. rewrite IH. lia.
Qed.

Lemma samples_times (ts a b c d : list R) :
  map fst (samples ts a b c d) = firstn (length (samples ts a b c d)) ts.
Proof.
  revert a b c d.
  induction ts as [|t ts IH]; intros a b c d.
  - destruct (samples [] a b c d) eqn:H; [reflexivity|discriminate H].
  - destruct a as [|xa a]; [reflexivity|].
    destruct b as [|xb b]; [reflexivity|].
    destruct c as [|xc c]; [reflexivity|].
    destruct d as [|xd d]; [reflexivity|].
    cbn [samples length map fst firstn]. rewrite <- IH. reflexivity.
Qed.




(** * The frame *)

(** C7: the constructor stores its five arguments, and no call of [dy_dt]
    or [solve_ode] changes any of them: the instance after a call, and
    after any sequence of calls, is the instance before it. *)
Theorem parameters_never_mutated :
  (forall a b c d e : R,
      L1 (__init__ (Some a) (Some b) (Some c) (Some d) (Some e)) = a /\
      L2 (__init__ (Some a) (Some b) (Some c) (Some d) (Some e)) = b /\
      m1 (__init__ (Some a) (Some b) (Some c) (Some d) (Some e)) = c /\
      m2 (__init__ (Some a) (Some b) (Some c) (Some d) (Some e)) = d /\
      g (__init__ (Some a) (Some b) (Some c) (Some d) (Some e)) = e) /\
  (forall (lib : library) (c : call) (self : DoublePendulum),
      L1 (snd (invoke lib c self)) = L1 self /\
      L2 (snd (invoke lib c self)) = L2 self /\
      m1 (snd (invoke lib c self)) = m1 self /\
      m2 (snd (invoke lib c self)) = m2 self /\
      g (snd (invoke lib c self)) = g self) /\
  (forall (lib : library) (cs : list call) (self : DoublePendulum),
      invoke_all lib cs self = self).
Proof.
  split; [|split].
  - intros a b c d e. repeat split.
  - intros lib c self. rewrite invoke_frame. repeat split.
  - exact invoke_all_frame.
Qed.

(** * [dy_dt] and the Lagrangian of the notebook *)

Section Differentiation.

Variables (f h : R -> R) (x a b : R).
Hypothesis Hf : derivable_pt_lim f x a.
Hypothesis Hh : derivable_pt_lim h x b.

Lemma dl_const (c : R) : derivable_pt_lim (fun _ => c) x 0.
Proof. exact (derivable_pt_lim_const c x). Qed.

Lemma dl_id : derivable_pt_lim (fun s => s) x 1.
Proof. exact (derivable_pt_lim_id x). Qed.

Lemma dl_plus : derivable_pt_lim (fun s => f s + h s) x (a + b).
Proof. exact (derivable_pt_lim_plus f h x a b Hf Hh). Qed.

Lemma dl_minus : derivable_pt_lim (fun s => f s - h s) x (a - b).
Proof. exact (derivable_pt_lim_minus f h x a b Hf Hh). Qed.

Lemma dl_opp : derivable_pt_lim (fun s => - f s) x (- a).
Proof. exact (derivable_pt_lim_opp f x a Hf). Qed.

Lemma dl_mult : derivable_pt_lim (fun s => f s * h s) x (a * h x + f x * b).
Proof. exact (derivable_pt_lim_mult f h x a b Hf Hh). Qed.

Lemma dl_sqr :
  derivable_pt_lim (fun s => f s ^ 2) x
    (a * (f x * 1) + f x * (a * 1 + f x * 0)).
Proof.
  change (derivable_pt_lim (fun s => f s * (f s * 1)) x
            (a * (f x * 1) + f x * (a * 1 + f x * 0))).
  apply (derivable_pt_lim_mult f (fun s => f s * 1) x a (a * 1 + f x * 0) Hf).
  apply (derivable_pt_lim_mult f (fun _ => 1) x a 0 Hf).
  apply derivable_pt_lim_const.
Qed.

Lemma dl_cos : derivable_pt_lim (fun s => cos (f s)) x (- sin (f x) * a).
Proof.
  exact (derivable_pt_lim_comp f cos x a (- sin (f x)) Hf
           (derivable_pt_lim_cos (f x))).
Qed.

End Differentiation.

(** Differentiates a sum, product, square or cosine term by term. *)
Ltac differentiate :=
  repeat first
    [ eassumption
    | apply dl_const
    | apply dl_id
    | eapply dl_plus
    | eapply dl_minus
    | eapply dl_opp
    | eapply dl_sqr
    | eapply dl_mult
    | eapply dl_cos ].

(** Reduces a goal [derivable_pt_lim F x l] to the equation between [l] and
    the derivative that [differentiate] computes. *)
Ltac derive_to :=
  match goal with
  | |- derivable_pt_lim ?F ?x ?l =>
      let H := fresh "Hder" in
      eassert (H : derivable_pt_lim F x _) by differentiate;
      match type of H with
      | derivable_pt_lim _ _ ?e => replace l with e; [exact H|]
      end
  end;
  cbn beta.

Lemma pythagoras (x : R) : cos x ^ 2 = 1 - sin x ^ 2.
Proof.
  pose proof (sin2_cos2 x) as H. unfold Rsqr in H. simpl. lra.
Qed.

Lemma d_nonzero (self : DoublePendulum) (x : R) :
  m1 self > 0 -> m2 self > 0 -> m1 self + m2 self * sin x ^ 2 <> 0.
Proof.
  intros Hm1 Hm2.
  pose proof (d_lower_bound (m1 self) (m2 self) x). lra.
Qed.

(** Without gravity, both arms turning together at unit speed is a motion
    that follows [dy_dt]. *)
Lemma rigid_rotation_follows (t : R) :
  follows_dy_dt weightless (fun s => s) (fun _ => 1) (fun s => s)
    (fun _ => 1) t.
Proof.
  exists 1, 0, 1, 0.
  split.
  - rewrite dy_dt_unfold. cbn [fst weightless __init__ kwarg L1 L2 g m1 m2].
    replace (t - t) with 0 by ring. rewrite sin_0, cos_0.
    match goal with
    | |- Returns (_, ?q1, _, ?q2) = _ =>
        replace q1 with 0 by (unfold Rdiv; ring);
        replace q2 with 0 by (unfold Rdiv; ring)
    end.
    reflexivity.
  - repeat split.
    + apply derivable_pt_lim_id.
    + apply derivable_pt_lim_const.
    + apply derivable_pt_lim_id.
    + apply derivable_pt_lim_const.
Qed.

(** X6: the accelerations that [dy_dt] returns solve the Euler-Lagrange
    equations of the notebook's Lagrangian.  Along every motion that follows
    [dy_dt] at [t], with positive masses and lengths, the time derivative of
    the momentum [dL/d(phi_i_dot)] equals [dL/d(phi_i)], for both angles.
    ([P1] and [P2] are the two momenta: the first conjunct says that they
    are the partial derivatives of the Lagrangian in the two velocities.) *)
Theorem euler_lagrange :
  forall (self : DoublePendulum) (phi1 phi1_dot phi2 phi2_dot : R -> R) (t : R),
    m1 self > 0 -> m2 self > 0 -> L1 self > 0 -> L2 self > 0 ->
    follows_dy_dt self phi1 phi1_dot phi2 phi2_dot t ->
    exists (P1 P2 : R -> R -> R -> R -> R) (F1 F2 : R),
      (forall u v y w : R,
          derivable_pt_lim (fun v' => lagrangian self u v' y w) v
            (P1 u v y w) /\
          derivable_pt_lim (fun w' => lagrangian self u v y w') w
            (P2 u v y w)) /\
      derivable_pt_lim
        (fun s => P1 (phi1 s) (phi1_dot s) (phi2 s) (phi2_dot s)) t F1 /\
      derivable_pt_lim
        (fun u => lagrangian self u (phi1_dot t) (phi2 t) (phi2_dot t))
        (phi1 t) F1 /\
      derivable_pt_lim
        (fun s => P2 (phi1 s) (phi1_dot s) (phi2 s) (phi2_dot s)) t F2 /\
      derivable_pt_lim
        (fun y => lagrangian self (phi1 t) (phi1_dot t) y (phi2_dot t))
        (phi2 t) F2.
Proof.
  intros self phi1 phi1_dot phi2 phi2_dot t Hm1 Hm2 HL1 HL2
    (a & b & c & d & Hdy & H1 & H2 & H3 & H4).
  rewrite dy_dt_unfold in Hdy. cbn [fst] in Hdy.
  injection Hdy as Ha Hb Hc Hd.
  pose proof (pythagoras (phi1 t - phi2 t)) as Hpyth.
  pose proof (d_nonzero self (phi1 t - phi2 t) Hm1 Hm2) as Hdpos.
  exists (fun u v y w =>
            (m1 self + m2 self) * L1 self ^ 2 * v
            + m2 self * L1 self * L2 self * w * cos (u - y)).
  exists (fun u v y w =>
            m2 self * L2 self ^ 2 * w
            + m2 self * L1 self * L2 self * v * cos (u - y)).
  exists (- m2 self * L1 self * L2 self * phi1_dot t * phi2_dot t
            * sin (phi1 t - phi2 t)
          - (m1 self + m2 self) * L1 self * g self * sin (phi1 t)).
  exists (m2 self * L1 self * L2 self * phi1_dot t * phi2_dot t
            * sin (phi1 t - phi2 t)
          - m2 self * L2 self * g self * sin (phi2 t)).
  unfold lagrangian, kinetic_energy, potential_energy.
  split; [intros u v y w; split|split; [|split; [|split]]].
  - derive_to. field.
  - derive_to. field.
  - derive_to. subst a b c d.
    set (sd := sin (phi1 t - phi2 t)) in *.
    set (cd := cos (phi1 t - phi2 t)) in *.
    field_simplify_eq; [|repeat split; try lra; exact Hdpos].
    ring [Hpyth].
  - derive_to. field.
  - derive_to. subst a b c d.
    set (sd := sin (phi1 t - phi2 t)) in *.
    set (cd := cos (phi1 t - phi2 t)) in *.
    field_simplify_eq; [|repeat split; try lra; exact Hdpos].
    ring [Hpyth].
  - derive_to. field.
Qed.

(** X6 for the rigid rotation of the pendulum without gravity. *)
Lemma euler_lagrange_witness :
  exists (P1 P2 : R -> R -> R -> R -> R) (F1 F2 : R),
    (forall u v y w : R,
        derivable_pt_lim (fun v' => lagrangian weightless u v' y w) v
          (P1 u v y w) /\
        derivable_pt_lim (fun w' => lagrangian weightless u v y w') w
          (P2 u v y w)) /\
    derivable_pt_lim (fun s => P1 s 1 s 1) 0 F1 /\
    derivable_pt_lim (fun u => lagrangian weightless u 1 0 1) 0 F1 /\
    derivable_pt_lim (fun s => P2 s 1 s 1) 0 F2 /\
    derivable_pt_lim (fun y => lagrangian weightless 0 1 y 1) 0 F2.
Proof.
  apply (euler_lagrange weightless (fun s => s) (fun _ => 1)
           (fun s => s) (fun _ => 1) 0).
  - cbn. lra.
  - cbn. lra.
  - cbn. lra.
  - cbn. lra.
  - apply rigid_rotation_follows.
Defined.

(** X7: the total energy [T + U] of the notebook is conserved: along every
    motion that follows [dy_dt] at [t], with positive masses and lengths,
    its time derivative at [t] is zero. *)
Theorem energy_conserved :
  forall (self : DoublePendulum) (phi1 phi1_dot phi2 phi2_dot : R -> R) (t : R),
    m1 self > 0 -> m2 self > 0 -> L1 self > 0 -> L2 self > 0 ->
    follows_dy_dt self phi1 phi1_dot phi2 phi2_dot t ->
    derivable_pt_lim
      (fun s => total_energy self (phi1 s) (phi1_dot s) (phi2 s) (phi2_dot s))
      t 0.
Proof.
  intros self phi1 phi1_dot phi2 phi2_dot t Hm1 Hm2 HL1 HL2
    (a & b & c & d & Hdy & H1 & H2 & H3 & H4).
  rewrite dy_dt_unfold in Hdy. cbn [fst] in Hdy.
  injection Hdy as Ha Hb Hc Hd.
  pose proof (pythagoras (phi1 t - phi2 t)) as Hpyth.
  pose proof (d_nonzero self (phi1 t - phi2 t) Hm1 Hm2) as Hdpos.
  unfold total_energy, kinetic_energy, potential_energy.
  derive_to. subst a b c d.
  set (sd := sin (phi1 t - phi2 t)) in *.
  set (cd := cos (phi1 t - phi2 t)) in *.
  field_simplify_eq; [|repeat split; try lra; exact Hdpos].
  ring [Hpyth].
Qed.

(** X7 for the rigid rotation of the pendulum without gravity. *)
Lemma energy_conserved_witness :
  derivable_pt_lim (fun s => total_energy weightless s 1 s 1) 0 0.
Proof.
  apply (energy_conserved weightless (fun s => s) (fun _ => 1)
           (fun s => s) (fun _ => 1) 0).
  - cbn. lra.
  - cbn. lra.
  - cbn. lra.
  - cbn. lra.
  - apply rigid_rotation_follows.
Defined.

(** * Further properties of [solve_ode] *)

(** X8: [solve_ode] returns four columns exactly when the grid is not empty
    and the library returns a result whose [y] consists of these four rows,
    in this order. *)
Theorem solve_ode_returns_iff :
  forall (lib : library) (self : DoublePendulum) (t_pts : list R)
         (phi1_0 phi1_dot_0 phi2_0 phi2_dot_0 : R) (abserr relerr : option R)
         (phi1 phi1_dot phi2 phi2_dot : list R),
    fst (run lib
           (solve_ode t_pts phi1_0 phi1_dot_0 phi2_0 phi2_dot_0
              abserr relerr self)) =
    Returns (phi1, phi1_dot, phi2, phi2_dot) <->
    exists (t0 : R) (rest : list R) (r : OdeResult),
      t_pts = t0 :: rest /\
      lib (request_of self t0 (last rest t0) t_pts
             phi1_0 phi1_dot_0 phi2_0 phi2_dot_0 abserr relerr) = Returns r /\
      ode_y r = [phi1; phi1_dot; phi2; phi2_dot].
Proof.
  intros lib self t_pts phi1_0 phi1_dot_0 phi2_0 phi2_dot_0 abserr relerr
    phi1 phi1_dot phi2 phi2_dot.
  destruct t_pts as [|t0 rest].
  - split.
    + intros H. discriminate H.
    + intros (t0 & rest & r & H & _). discriminate H.
  - rewrite run_solve_ode. split.
    + intros H. exists t0, rest.
      destruct (lib _) as [r|e]; [|discriminate H].
      exists r. split; [reflexivity|]. split; [reflexivity|].
      unfold after_answer in H.
      destruct (ode_y r) as [|a [|b [|c [|d [|x more]]]]];
        try discriminate H.
      cbn in H. injection H as -> -> -> ->. reflexivity.
    + intros (t0' & rest' & r & Hgrid & Hlib & Hrows).
      injection Hgrid as <- <-.
      rewrite Hlib. unfold after_answer. rewrite Hrows. reflexivity.
Qed.

(** X9: [solve_ode] raises in three cases only: [IndexError] on an empty
    grid, whatever the library raises, and [ValueError] when the [y] of the
    library's result does not have exactly four rows. *)
Theorem solve_ode_raises_iff :
  forall (lib : library) (self : DoublePendulum) (t_pts : list R)
         (phi1_0 phi1_dot_0 phi2_0 phi2_dot_0 : R) (abserr relerr : option R)
         (e : exn),
    fst (run lib
           (solve_ode t_pts phi1_0 phi1_dot_0 phi2_0 phi2_dot_0
              abserr relerr self)) = Raises e <->
    (t_pts = [] /\ e = IndexError) \/
    (exists (t0 : R) (rest : list R),
        t_pts = t0 :: rest /\
        (lib (request_of self t0 (last rest t0) t_pts
                phi1_0 phi1_dot_0 phi2_0 phi2_dot_0 abserr relerr) =
         Raises e \/
         exists r : OdeResult,
           lib (request_of self t0 (last rest t0) t_pts
                  phi1_0 phi1_dot_0 phi2_0 phi2_dot_0 abserr relerr) =
           Returns r /\
           length (ode_y r) <> 4%nat /\ e = ValueError)).
Proof.
  intros lib self t_pts phi1_0 phi1_dot_0 phi2_0 phi2_dot_0 abserr relerr e.
  destruct t_pts as [|t0 rest].
  - split.
    + intros H. injection H as <-. left. split; reflexivity.
    + intros [[_ ->]|(t0 & rest & H & _)]; [reflexivity|discriminate H].
  - rewrite run_solve_ode. split.
    + intros H. right. exists t0, rest. split; [reflexivity|].
      destruct (lib _) as [r|e'].
      * right. exists r. split; [reflexivity|].
        unfold after_answer in H.
        destruct (ode_y r) as [|a [|b [|c [|d [|x more]]]]];
          try discriminate H;
          cbn in H; injection H as <-; split;
          solve [discriminate | reflexivity].
      * left. cbn in H. injection H as <-. reflexivity.
    + intros [[H _]|(t0' & rest' & Hgrid & Hcases)]; [discriminate H|].
      injection Hgrid as <- <-.
      destruct Hcases as [Hlib|(r & Hlib & Hrows & ->)]; rewrite Hlib.
      * reflexivity.
      * unfold after_answer.
        destruct (ode_y r) as [|a [|b [|c [|d [|x more]]]]];
          try reflexivity.
        exfalso. apply Hrows. reflexivity.
Qed.

(** X10: [solve_ode] calls the library once on a grid that is not empty and
    never on an empty one, whatever the library answers: a failed or
    rejected integration is not retried. *)
Theorem solve_ode_calls_library_once :
  forall (lib : library) (self : DoublePendulum) (t_pts : list R)
         (phi1_0 phi1_dot_0 phi2_0 phi2_dot_0 : R) (abserr relerr : option R),
    library_calls lib
      (solve_ode t_pts phi1_0 phi1_dot_0 phi2_0 phi2_dot_0
         abserr relerr self) =
    match t_pts with
    | [] => 0%nat
    | _ :: _ => 1%nat
    end.
Proof.
  intros lib self t_pts phi1_0 phi1_dot_0 phi2_0 phi2_dot_0 abserr relerr.
  destruct t_pts as [|t0 rest]; [reflexivity|].
  destruct (solve_ode_nonempty self phi1_0 phi1_dot_0 phi2_0 phi2_dot_0
              abserr relerr t0 rest) as (k & Hcall & Hk).
  rewrite Hcall. cbn [library_calls]. rewrite Hk.
  destruct (lib _) as [r|e]; [|reflexivity].
  unfold after_answer.
  destruct (ode_y r) as [|a [|b [|c [|d [|x more]]]]]; reflexivity.
Qed.

(** * [start_stop_indices] and the plotted window *)

(** The scan of [argmin], started on what is left of an array whose first
    smallest entry so far is [best] at [best_index], ends on the first
    smallest entry of the whole array. *)
Lemma argmin_from_first_minimum (a pre : list R) (best_index : nat) (best : R) :
  nth_error pre best_index = Some best ->
  (forall k x, nth_error pre k = Some x -> best <= x) ->
  (forall k x, (k < best_index)%nat -> nth_error pre k = Some x -> best < x) ->
  first_minimum (pre ++ a) (argmin_from best_index best (length pre) a).
Proof.
  revert pre best_index best.
  induction a as [|x rest IH]; intros pre best_index best Hbest Hmin Hfirst.
  - rewrite app_nil_r. cbn. exists best. auto.
  - cbn [argmin_from].
    assert (Hshape : pre ++ x :: rest = (pre ++ [x]) ++ rest)
      by (rewrite <- app_assoc; reflexivity).
    assert (Hlen : S (length pre) = length (pre ++ [x]))
      by (rewrite length_app; cbn; lia).
    assert (Hcases : forall k z, nth_error (pre ++ [x]) k = Some z ->
              nth_error pre k = Some z \/ (k = length pre /\ z = x)).
    { intros k z Hk.
      destruct (Nat.lt_ge_cases k (length pre)) as [Hlt|Hge].
      - left. rewrite nth_error_app1 in Hk; assumption.
      - right. rewrite nth_error_app2 in Hk by assumption.
        destruct (k - length pre)%nat as [|n] eqn:Hdiff.
        + cbn in Hk. injection Hk as <-. split; [lia|reflexivity].
        + cbn in Hk. destruct n; discriminate Hk. }
    rewrite Hshape, Hlen.
    destruct (Rlt_dec x best) as [Hlt|Hge].
    + apply IH.
      * rewrite nth_error_app2 by lia. rewrite Nat.sub_diag. reflexivity.
      * intros k z Hk. destruct (Hcases k z Hk) as [Hin|[_ ->]].
        -- specialize (Hmin k z Hin). lra.
        -- lra.
      * intros k z Hk Hz.
        destruct (Hcases k z Hz) as [Hin|[-> _]].
        -- specialize (Hmin k z Hin). lra.
        -- lia.
    + apply IH.
      * rewrite nth_error_app1; [assumption|].
        apply nth_error_Some. rewrite Hbest. discriminate.
      * intros k z Hk. destruct (Hcases k z Hk) as [Hin|[_ ->]].
        -- exact (Hmin k z Hin).
        -- lra.
      * intros k z Hk Hz.
        destruct (Hcases k z Hz) as [Hin|[-> _]].
        -- exact (Hfirst k z Hk Hin).
        -- assert (best_index < length pre)%nat.
           { apply nth_error_Some. rewrite Hbest. discriminate. }
           lia.
Qed.

Lemma argmin_first_minimum (a : list R) (r : nat) :
  argmin a = Returns r -> first_minimum a r.
Proof.
  destruct a as [|x rest]; [discriminate|].
  intros H. injection H as <-.
  apply (argmin_from_first_minimum rest [x] 0 x).
  - reflexivity.
  - intros k z Hk. destruct k as [|[|k]]; cbn in Hk; try discriminate.
    injection Hk as <-. lra.
  - intros k z Hk. lia.
Qed.

Lemma first_minimum_unique (a : list R) (r r' : nat) :
  first_minimum a r -> first_minimum a r' -> r = r'.
Proof.
  intros (m & Hr & Hmin & Hfirst) (m' & Hr' & Hmin' & Hfirst').
  destruct (Nat.lt_trichotomy r r') as [Hlt|[Heq|Hgt]].
  - specialize (Hfirst' r m Hlt Hr). specialize (Hmin r' m' Hr'). lra.
  - exact Heq.
  - specialize (Hfirst r' m' Hgt Hr'). specialize (Hmin' r m Hr). lra.
Qed.
Lemma nth_error_distances (t_pts : list R) (x : R) (k : nat) :
  (k < length t_pts)%nat ->
  nth_error (distances t_pts x) k = Some (Rabs (nth k t_pts 0 - x)).
Proof.
  intros Hk. unfold distances.
  rewrite nth_error_map, (nth_error_nth' t_pts 0 Hk). reflexivity.
Qed.

Lemma nth_error_distances_lt (t_pts : list R) (x m : R) (k : nat) :
  nth_error (distances t_pts x) k = Some m -> (k < length t_pts)%nat.
Proof.
  intros H.
  assert (Hk : (k < length (distances t_pts x))%nat).
  { apply nth_error_Some. rewrite H. discriminate. }
  unfold distances in Hk. rewrite length_map in Hk. exact Hk.
Qed.

Lemma first_minimum_nearest (t_pts : list R) (x : R) (i : nat) :
  first_minimum (distances t_pts x) i <-> nearest_first t_pts x i.
Proof.
  split.
  - intros (m & Hi & Hmin & Hfirst).
    pose proof (nth_error_distances_lt _ _ _ _ Hi) as Hlt.
    rewrite (nth_error_distances _ x _ Hlt) in Hi. injection Hi as <-.
    repeat split.
    + exact Hlt.
    + intros k Hk. exact (Hmin k _ (nth_error_distances _ x _ Hk)).
    + intros k Hk. apply (Hfirst k _ Hk).
      apply nth_error_distances. lia.
  - intros (Hlt & Hmin & Hfirst).
    exists (Rabs (nth i t_pts 0 - x)). repeat split.
    + apply nth_error_distances. exact Hlt.
    + intros k z Hz.
      pose proof (nth_error_distances_lt _ _ _ _ Hz) as Hk.
      rewrite (nth_error_distances _ x _ Hk) in Hz. injection Hz as <-.
      exact (Hmin k Hk).
    + intros k z Hk Hz.
      pose proof (nth_error_distances_lt _ _ _ _ Hz) as Hk'.
      rewrite (nth_error_distances _ x _ Hk') in Hz. injection Hz as <-.
      exact (Hfirst k Hk).
Qed.

Lemma argmin_distances (t0 : R) (rest : list R) (x : R) :
  exists i : nat,
    argmin (distances (t0 :: rest) x) = Returns i /\
    nearest_first (t0 :: rest) x i.
Proof.
  eexists. split; [reflexivity|].
  apply first_minimum_nearest, argmin_first_minimum. reflexivity.
Qed.

Lemma strictly_increasing_head (x : R) (l : list R) :
  strictly_increasing (x :: l) ->
  forall j : nat, (j < length l)%nat -> x < nth j l 0.
Proof.
  revert x. induction l as [|y l IH]; intros x Hinc j Hj.
  - cbn in Hj. lia.
  - destruct Hinc as [Hxy Hrest].
    destruct j as [|j]; [exact Hxy|].
    cbn in Hj. cbn [nth].
    specialize (IH y Hrest j ltac:(lia)). lra.
Qed.

Lemma strictly_increasing_nth (l : list R) (i j : nat) :
  strictly_increasing l -> (i < j)%nat -> (j < length l)%nat ->
  nth i l 0 < nth j l 0.
Proof.
  revert i j. induction l as [|x l IH]; intros i j Hinc Hij Hj.
  - cbn in Hj. lia.
  - destruct j as [|j]; [lia|]. cbn in Hj.
    destruct i as [|i].
    + cbn [nth]. apply (strictly_increasing_head x l Hinc). lia.
    + cbn [nth]. apply IH; try lia.
      destruct l as [|y l]; [exact I|]. exact (proj2 Hinc).
Qed.

Lemma argmin_at_grid_point (t_pts : list R) (i : nat) :
  strictly_increasing t_pts -> (i < length t_pts)%nat ->
  argmin (distances t_pts (nth i t_pts 0)) = Returns i.
Proof.
  intros Hinc Hi.
  destruct t_pts as [|t0 rest]; [cbn in Hi; lia|].
  destruct (argmin_distances t0 rest (nth i (t0 :: rest) 0))
    as (r & Hr & Hnear).
  rewrite Hr. f_equal.
  apply (first_minimum_unique
           (distances (t0 :: rest) (nth i (t0 :: rest) 0))).
  - apply first_minimum_nearest. exact Hnear.
  - apply first_minimum_nearest. repeat split.
    + exact Hi.
    + intros k Hk. rewrite Rminus_diag, Rabs_R0. apply Rabs_pos.
    + intros k Hk. rewrite Rminus_diag, Rabs_R0. apply Rabs_pos_lt.
      pose proof (strictly_increasing_nth _ k i Hinc Hk Hi). lra.
Qed.

(** X11: on an empty grid [start_stop_indices] raises [ValueError]; on
    every other grid it returns, and both indices it returns are indices
    of the grid, whatever the two requested times are. *)
Theorem start_stop_indices_in_range :
  forall (plot_start plot_stop : R),
    start_stop_indices [] plot_start plot_stop = Raises ValueError /\
    forall (t0 : R) (rest : list R),
    exists start_index stop_index : nat,
      start_stop_indices (t0 :: rest) plot_start plot_stop =
      Returns (start_index, stop_index) /\
      (start_index < length (t0 :: rest))%nat /\
      (stop_index < length (t0 :: rest))%nat.
Proof.
  intros plot_start plot_stop. split; [reflexivity|].
  intros t0 rest.
  destruct (argmin_distances t0 rest plot_start) as (i & Hi & Hnear_i).
  destruct (argmin_distances t0 rest plot_stop) as (j & Hj & Hnear_j).
  exists i, j. unfold start_stop_indices. rewrite Hi, Hj.
  split; [reflexivity|].
  split; [apply Hnear_i | apply Hnear_j].
Qed.

(** X12: on a strictly increasing grid, asking for two times of the grid
    returns exactly their indices. *)
Theorem start_stop_indices_at_grid_points :
  forall (t_pts : list R) (i j : nat),
    strictly_increasing t_pts ->
    (i < length t_pts)%nat -> (j < length t_pts)%nat ->
    start_stop_indices t_pts (nth i t_pts 0) (nth j t_pts 0) = Returns (i, j).
Proof.
  intros t_pts i j Hinc Hi Hj. unfold start_stop_indices.
  rewrite (argmin_at_grid_point t_pts i Hinc Hi).
  rewrite (argmin_at_grid_point t_pts j Hinc Hj).
  reflexivity.
Qed.

(** X12 on the grid [0, 1, 2]. *)
Lemma start_stop_indices_at_grid_points_witness :
  start_stop_indices [0; 1; 2] (nth 1 [0; 1; 2] 0) (nth 2 [0; 1; 2] 0) =
  Returns (1%nat, 2%nat).
Proof.
  apply (start_stop_indices_at_grid_points [0; 1; 2] 1 2).
  - cbn. lra.
  - cbn. lia.
  - cbn. lia.
Defined.

Lemma nth_length_last (t0 : R) (rest : list R) :
  nth (length rest) (t0 :: rest) 0 = last rest t0.
Proof.
  revert t0. induction rest as [|t1 rest IH]; intros t0.
  - reflexivity.
  - cbn [length]. change (nth (length rest) (t1 :: rest) 0 = last (t1 :: rest) t0).
    rewrite IH, last_cons. reflexivity.
Qed.

(** X14: when the window is asked from the first to the last time of a
    strictly increasing grid, the slices handed to the plot are the grid
    and the column without their last entry: the stop index is exclusive,
    so the sample at the last time is not plotted. *)
Theorem plot_window_drops_last_sample :
  forall (t0 : R) (rest column : list R),
    strictly_increasing (t0 :: rest) ->
    length column = length (t0 :: rest) ->
    plot_window (t0 :: rest) column t0 (last rest t0) =
    Returns (removelast (t0 :: rest), removelast column).
Proof.
  intros t0 rest column Hinc Hlen.
  unfold plot_window, start_stop_indices.
  change (distances (t0 :: rest) t0)
    with (distances (t0 :: rest) (nth 0 (t0 :: rest) 0)).
  rewrite <- nth_length_last.
  rewrite (argmin_at_grid_point (t0 :: rest) 0 Hinc) by (cbn; lia).
  rewrite (argmin_at_grid_point (t0 :: rest) (length rest) Hinc)
    by (cbn; lia).
  unfold slice. rewrite Nat.sub_0_r. cbn [skipn].
  rewrite (removelast_firstn_len (t0 :: rest)).
  rewrite (removelast_firstn_len column), Hlen.
  reflexivity.
Qed.

(** X14 on the grid [0, 1, 2]. *)
Lemma plot_window_drops_last_sample_witness :
  plot_window [0; 1; 2] [PI / 2; 1; 0] 0 (last [1; 2] 0) =
  Returns (removelast [0; 1; 2], removelast [PI / 2; 1; 0]).
Proof.
  apply (plot_window_drops_last_sample 0 [1; 2] [PI / 2; 1; 0]).
  - cbn. lra.
  - reflexivity.
Defined.

(** * [plot_y_vs_x] *)

(** X15: every call of [plot_y_vs_x] draws exactly one curve, with the data
    and the label, color and line style it was given, also when it goes on
    to fail on [axis_labels]; [semilogy] takes precedence over [loglog]. *)
Theorem plot_y_vs_x_draws_once :
  forall (x y : list R) (axis_labels : option (list string))
         (label title color linestyle : option string)
         (semilogy loglog ax_given : bool),
    filter is_drawing
      (fst (plot_y_vs_x x y axis_labels label title color linestyle
              semilogy loglog ax_given)) =
    [if semilogy then Semilogy x y label color linestyle
     else if loglog then Loglog x y label color linestyle
     else Plot x y label color linestyle].
Proof.
  intros x y axis_labels label title color linestyle semilogy loglog ax_given.
  unfold plot_y_vs_x.
  destruct axis_labels as [[|x_text [|y_text more]]|];
    destruct ax_given, semilogy, loglog, label, title; reflexivity.
Qed.
